(** * PointCloudScalarQuantity (polyscope, src/point_cloud_scalar_quantity.cpp)

    Shallow embedding of the scalar quantity attached to a point cloud:
    its constructor, [resetMapRange], [setMapRange], [setColorMap],
    [geometryChanged], [draw], [createPointProgram], [buildCustomUI] and
    [buildPickUI].

    Doubles are modelled as rationals [Q] (finite values; NaN is not
    modelled).  The operations performed on them in double precision
    (copy, negation, [std::abs], [std::max], comparison) are exact.
    [vizRange] is a [std::pair<float, float>] (its fields are handed to
    [ImGui::DragFloatRange2] as [float*]), so every assignment of a double
    pair to it narrows each bound to binary32: [to_float] below rounds to
    nearest, ties to even, with subnormals, and overflows to an infinity.
    The sign of a float zero is not kept ([-0.0f] and [0.0f] compare
    equal). *)

From Stdlib Require Import List QArith Qabs Qminmax Qround Qpower Arith Lia Lqa.
Import ListNotations.

(** ** Data model *)

(** [DataType] of the header: the three range semantics. *)
Inductive DataType : Type :=
| STANDARD
| SYMMETRIC
| MAGNITUDE.

(** [gl::ColorMapID]: an identifier into the colormap registry. *)
Definition ColorMapID := nat.

(** [std::max(a, b)] is [(a < b) ? b : a]. *)
Definition cpp_max (a b : Q) : Q :=
  match a ?= b with
  | Lt => b
  | _ => a
  end.

(** [std::abs] on a double. *)
Definition cpp_abs (a : Q) : Q := Qabs a.

(** ** Binary32 floats *)

(** A [float]: a finite value or an infinity. *)
Inductive F32 : Type :=
| F32Fin (q : Q)
| F32PInf
| F32NInf.

(** [a <= b] on floats. *)
Definition f32_le (a b : F32) : Prop :=
  match a, b with
  | F32NInf, _ => True
  | _, F32PInf => True
  | F32Fin x, F32Fin y => x <= y
  | _, _ => False
  end.

(** Equality of float values ([==] on floats). *)
Definition f32_eq (a b : F32) : Prop :=
  match a, b with
  | F32Fin x, F32Fin y => x == y
  | F32PInf, F32PInf | F32NInf, F32NInf => True
  | _, _ => False
  end.

(** Unary minus on a float. *)
Definition f32_opp (a : F32) : F32 :=
  match a with
  | F32Fin x => F32Fin (Qred (- x))
  | F32PInf => F32NInf
  | F32NInf => F32PInf
  end.

Definition pow2 (z : Z) : Q := Qpower 2 z.

(** The quantum exponent of a positive [a]: the largest [e] in
    [-149 .. 105] with [2^(e+23) <= a], or [-149] (subnormal range). *)
Fixpoint qexp_search (n : nat) (a : Q) : Z :=
  match n with
  | O => (-149)%Z
  | S m =>
      let e := (-149 + Z.of_nat n)%Z in
      if Qle_bool (pow2 (e + 23)) a then e else qexp_search m a
  end.

Definition qexp (a : Q) : Z := qexp_search 254 a.

(** Rounding to the nearest integer, ties to even. *)
Definition rne (u : Q) : Z :=
  let f := Qfloor u in
  match Qcompare (u - inject_Z f) (1 # 2) with
  | Lt => f
  | Gt => (f + 1)%Z
  | Eq => if Z.even f then f else (f + 1)%Z
  end.

(** [a] rounded to 24 significant bits at its quantum exponent. *)
Definition round_pos (a : Q) : Q :=
  let e := qexp a in
  inject_Z (rne (a * pow2 (- e))) * pow2 e.

(** [FLT_MAX = (2^24 - 1) * 2^104]. *)
Definition FLT_MAX : Q := inject_Z ((2 ^ 24 - 1) * 2 ^ 104).

(** The conversion of a double to [float] (round to nearest, ties to even;
    a rounded magnitude above [FLT_MAX] becomes an infinity). *)
Definition to_float (x : Q) : F32 :=
  match Qcompare x 0 with
  | Eq => F32Fin 0
  | Gt => let r := round_pos x in
          if Qle_bool r FLT_MAX then F32Fin (Qred r) else F32PInf
  | Lt => let r := round_pos (- x) in
          if Qle_bool r FLT_MAX then F32Fin (Qred (- r)) else F32NInf
  end.


(** A [std::pair<double, double>] assigned to a [std::pair<float, float>]. *)
Definition to_float_pair (p : Q * Q) : F32 * F32 := (to_float (fst p), to_float (snd p)).

(** The GPU program built by [createPointProgram]: it bakes the per-point
    values and the colormap texture of the current [cMap] into buffers. *)
Record GLProgram : Type := mkGLProgram {
  prog_values : list Q;
  prog_cmap : ColorMapID
}.

(** The histogram collaborator [hist]: what it was last told. *)
Record Histogram : Type := mkHistogram {
  hist_cmap : option ColorMapID;
  hist_values : list Q;
  hist_colormapRange : F32 * F32
}.

Definition hist0 : Histogram := mkHistogram None [] (F32Fin 0, F32Fin 0).

(** Observable effects sent to collaborators, in order. *)
Inductive Event : Type :=
| EvError (nValues nPoints : nat)   (** [polyscope::error(...)] *)
| EvHistUpdateColormap (c : ColorMapID)
| EvHistBuild (vals : list Q)
| EvRequestRedraw.

(** The fields of a [PointCloudScalarQuantity] together with what the
    code reads of its parent ([parent.points.size()]) and the event log. *)
Record State : Type := mkState {
  nPoints : nat;
  dataType : DataType;
  values : list Q;
  dataRange : Q * Q;
  vizRange : F32 * F32;   (** [std::pair<float, float>] *)
  cMap : ColorMapID;
  hist : Histogram;
  pointProgram : option GLProgram;   (** [nullptr] is [None] *)
  log : list Event
}.

Definition set_values (v : list Q) (s : State) : State :=
  mkState (nPoints s) (dataType s) v (dataRange s) (vizRange s) (cMap s)
          (hist s) (pointProgram s) (log s).
Definition set_dataRange (r : Q * Q) (s : State) : State :=
  mkState (nPoints s) (dataType s) (values s) r (vizRange s) (cMap s)
          (hist s) (pointProgram s) (log s).
Definition set_vizRange (r : F32 * F32) (s : State) : State :=
  mkState (nPoints s) (dataType s) (values s) (dataRange s) r (cMap s)
          (hist s) (pointProgram s) (log s).
Definition set_cMap (c : ColorMapID) (s : State) : State :=
  mkState (nPoints s) (dataType s) (values s) (dataRange s) (vizRange s) c
          (hist s) (pointProgram s) (log s).
Definition set_hist (h : Histogram) (s : State) : State :=
  mkState (nPoints s) (dataType s) (values s) (dataRange s) (vizRange s)
          (cMap s) h (pointProgram s) (log s).
Definition set_pointProgram (p : option GLProgram) (s : State) : State :=
  mkState (nPoints s) (dataType s) (values s) (dataRange s) (vizRange s)
          (cMap s) (hist s) p (log s).
Definition emit (e : Event) (s : State) : State :=
  mkState (nPoints s) (dataType s) (values s) (dataRange s) (vizRange s)
          (cMap s) (hist s) (pointProgram s) (log s ++ [e]).

(** [requestRedraw()] *)
Definition requestRedraw (s : State) : State := emit EvRequestRedraw s.

(** [hist.updateColormap(c)] *)
Definition hist_updateColormap (c : ColorMapID) (s : State) : State :=
  emit (EvHistUpdateColormap c)
    (set_hist (mkHistogram (Some c) (hist_values (hist s))
                           (hist_colormapRange (hist s))) s).

(** [hist.buildHistogram(vals)] *)
Definition hist_buildHistogram (vals : list Q) (s : State) : State :=
  emit (EvHistBuild vals)
    (set_hist (mkHistogram (hist_cmap (hist s)) vals
                           (hist_colormapRange (hist s))) s).

(** ** Robust range estimation *)

Fixpoint insertQ (x : Q) (l : list Q) : list Q :=
  match l with
  | [] => [x]
  | y :: l' => if Qle_bool x y then x :: l else y :: insertQ x l'
  end.

Fixpoint sortQ (l : list Q) : list Q :=
  match l with
  | [] => []
  | x :: l' => insertQ x (sortQ l')
  end.

Definition list_min (x : Q) (l : list Q) : Q := fold_left Qmin l x.
Definition list_max (x : Q) (l : list Q) : Q := fold_left Qmax l x.

(** Modelled from the spec: [robustMinMax] (declared in the polyscope
    affine remapper, not part of src/), after section 4.1: sort a copy,
    discard the lowest and the highest [rangeEPS] fraction of the entries
    (floor of [rangeEPS * N] on each side), and return the min and max of
    what remains; when trimming would leave nothing the full range is
    used.  An empty input gives the collapsed range [(0, 0)]. *)
Definition robustMinMax (data : list Q) (rangeEPS : Q) : Q * Q :=
  let sorted := sortQ data in
  let n := length sorted in
  let k := Z.to_nat (Qfloor (rangeEPS * inject_Z (Z.of_nat n))) in
  let kept := if Nat.ltb (2 * k) n
              then firstn (n - 2 * k) (skipn k sorted)
              else sorted in
  match kept with
  | [] => (0, 0)
  | x :: rest => (list_min x rest, list_max x rest)
  end.

(** ** Member functions *)

(** [resetMapRange()], lines 53-69. *)
Definition resetMapRange (s : State) : State :=
  let dr := dataRange s in
  let s' :=
    match dataType s with
    | STANDARD => set_vizRange (to_float_pair dr) s
    | SYMMETRIC =>
        let absRange := cpp_max (cpp_abs (fst dr)) (cpp_abs (snd dr)) in
        set_vizRange (to_float_pair (- absRange, absRange)) s
    | MAGNITUDE => set_vizRange (to_float_pair (0, snd dr)) s
    end in
  requestRedraw s'.

(** [setColorMap(val)], lines 148-153. *)
Definition setColorMap (val : ColorMapID) (s : State) : State :=
  let s1 := set_cMap val s in
  let s2 := hist_updateColormap (cMap s1) s1 in
  requestRedraw s2.

(** [getColorMap()], line 154. *)
Definition getColorMap (s : State) : ColorMapID := cMap s.

(** [setMapRange(val)], lines 155-159. *)
Definition setMapRange (val : Q * Q) (s : State) : State :=
  requestRedraw (set_vizRange (to_float_pair val) s).

(** [getMapRange()], line 160: the float pair, widened exactly to double. *)
Definition getMapRange (s : State) : F32 * F32 := vizRange s.

(** [geometryChanged()], line 139. *)
Definition geometryChanged (s : State) : State := set_pointProgram None s.

(** [createPointProgram()], lines 125-137. *)
Definition createPointProgram (s : State) : State :=
  set_pointProgram (Some (mkGLProgram (values s) (cMap s))) s.

(** The uniforms and program of one draw call. *)
Record DrawCall : Type := mkDrawCall {
  u_rangeLow : F32;
  u_rangeHigh : F32;
  drawn_with : GLProgram
}.

(** [draw()], lines 36-51; [isEnabled] is the value of [isEnabled()]. *)
Definition draw (isEnabled : bool) (s : State) : State * option DrawCall :=
  if negb isEnabled then (s, None) else
  let s1 := match pointProgram s with
            | None => createPointProgram s
            | Some _ => s
            end in
  match pointProgram s1 with
  | Some p => (s1, Some (mkDrawCall (fst (vizRange s1)) (snd (vizRange s1)) p))
  | None => (s1, None)
  end.

(** [buildPickUI(ind)], lines 141-146: the value printed for point [ind].
    [values[ind]] is an unchecked [operator[]]; [None] stands for the
    undefined behaviour of an index past the end. *)
Definition buildPickUI (s : State) (ind : nat) : option Q :=
  nth_error (values s) ind.

(** ** Constructor, lines 14-34 *)

(** The statements of the constructor, in source order. *)
Inductive CtorStmt : Type :=
| InitCMap                     (** [cMap(..., defaultColorMap(dataType))] *)
| CheckLength                  (** the size check and [polyscope::error] *)
| CopyValues                   (** [values = values_] *)
| HistUpdateColormap           (** [hist.updateColormap(cMap.get())] *)
| HistBuildHistogram           (** [hist.buildHistogram(values)] *)
| ComputeDataRange (eps : Q)   (** [dataRange = robustMinMax(values, eps)] *)
| CallResetMapRange.           (** [resetMapRange()] *)

Definition ctor_body : list CtorStmt :=
  [InitCMap; CheckLength; CopyValues; HistUpdateColormap; HistBuildHistogram;
   ComputeDataRange (1 # 100000); CallResetMapRange].

Section Constructor.

(** Modelled from the spec: [defaultColorMap] (declared outside src/),
    "one fixed default per mode"; left as a parameter. *)
Variable defaultColorMap : DataType -> ColorMapID.

Definition exec_stmt (values_ : list Q) (st : CtorStmt) (s : State) : State :=
  match st with
  | InitCMap => set_cMap (defaultColorMap (dataType s)) s
  | CheckLength =>
      if Nat.eqb (length values_) (nPoints s) then s
      else emit (EvError (length values_) (nPoints s)) s
  | CopyValues => set_values values_ s
  | HistUpdateColormap => hist_updateColormap (cMap s) s
  | HistBuildHistogram => hist_buildHistogram (values s) s
  | ComputeDataRange eps => set_dataRange (robustMinMax (values s) eps) s
  | CallResetMapRange => resetMapRange s
  end.

Definition exec_body (values_ : list Q) (body : list CtorStmt) (s : State)
  : State :=
  fold_left (fun acc st => exec_stmt values_ st acc) body s.

(** The object before the constructor body: default-initialised members. *)
Definition ctor_init (nPts : nat) (dt : DataType) : State :=
  mkState nPts dt [] (0, 0) (F32Fin 0, F32Fin 0) 0%nat hist0 None [].

(** [PointCloudScalarQuantity(name, values_, pointCloud_, dataType_)], for a
    parent cloud of [nPts] points. *)
Definition construct (nPts : nat) (dt : DataType) (values_ : list Q) : State :=
  exec_body values_ ctor_body (ctor_init nPts dt).

End Constructor.

(** The public mutators. *)
Inductive Mutator : Type :=
| MResetMapRange
| MSetMapRange (val : Q * Q)
| MSetColorMap (val : ColorMapID)
| MGeometryChanged.

Definition apply_mutator (m : Mutator) (s : State) : State :=
  match m with
  | MResetMapRange => resetMapRange s
  | MSetMapRange val => setMapRange val s
  | MSetColorMap val => setColorMap val s
  | MGeometryChanged => geometryChanged s
  end.

Definition run (ms : list Mutator) (s : State) : State :=
  fold_left (fun acc m => apply_mutator m acc) ms s.

(** The ordered-pair condition a caller of [setMapRange] is asked to keep. *)
Definition mutator_ordered (m : Mutator) : Prop :=
  match m with
  | MSetMapRange (a, b) => a <= b
  | _ => True
  end.

(** The statement order the constructor is described with in the spec
    (section 4.2), for comparison with [ctor_body]. *)
Definition spec_ctor_order : list CtorStmt :=
  [CheckLength; CopyValues; InitCMap; ComputeDataRange (1 # 100000);
   CallResetMapRange; HistUpdateColormap; HistBuildHistogram].

(** The colormap selector branch of [buildCustomUI], lines 84-88, after
    [buildColormapSelector] wrote [c] into [cMap] and reported a change. *)
Definition ui_colormapSelected (c : ColorMapID) (s : State) : State :=
  let s1 := set_cMap c s in
  let s2 := set_pointProgram None s1 in
  let s3 := hist_updateColormap (cMap s2) s2 in
  setColorMap (getColorMap s3) s3.

(** The log entries of the size check. *)
Definition length_error_log (values_ : list Q) (nPts : nat) : list Event :=
  if Nat.eqb (length values_) nPts then []
  else [EvError (length values_) nPts].

(** ** The per-frame options UI, [buildCustomUI], lines 71-122 *)

(** What the ImGui widgets report in one frame: whether the "Reset colormap
    range" menu item of the open Options popup was chosen, the colormap the
    selector wrote into [cMap] if it reported a change, whether the Reset
    button was pressed, and the pair the [DragFloatRange2] slider wrote
    through its pointers into [vizRange] if it was dragged. *)
Record UIInput : Type := mkUIInput {
  ui_menuReset : bool;
  ui_selector : option ColorMapID;
  ui_resetButton : bool;
  ui_slider : option (F32 * F32)
}.

(** [hist.colormapRange = vizRange] (line 97). *)
Definition hist_setColormapRange (s : State) : State :=
  set_hist (mkHistogram (hist_cmap (hist s)) (hist_values (hist s))
                        (vizRange s)) s.

(** [buildCustomUI()]: the statements in source order.  The slider writes
    [vizRange] in place; it does not go through [setMapRange]. *)
Definition buildCustomUI (inp : UIInput) (s : State) : State :=
  let s1 := if ui_menuReset inp then resetMapRange s else s in
  let s2 := match ui_selector inp with
            | Some c => ui_colormapSelected c s1
            | None => s1
            end in
  let s3 := if ui_resetButton inp then resetMapRange s2 else s2 in
  let s4 := hist_setColormapRange s3 in
  match ui_slider inp with
  | Some r => set_vizRange r s4
  | None => s4
  end.

(** The double pair that [resetMapRange] computes from a mode and a data
    range before assigning it to the float [vizRange] (the table of lines
    54-65, as a function of its inputs). *)
Definition reset_table (dt : DataType) (dr : Q * Q) : Q * Q :=
  match dt with
  | STANDARD => dr
  | SYMMETRIC =>
      let absRange := cpp_max (cpp_abs (fst dr)) (cpp_abs (snd dr)) in
      (- absRange, absRange)
  | MAGNITUDE => (0, snd dr)
  end.

(** ** Lemmas *)

Lemma rne_floor (u : Q) : (Qfloor u <= rne u <= Qfloor u + 1)%Z.
Proof.
  unfold rne; destruct (Qcompare _ _); [destruct (Z.even _)|..]; lia.
Qed.

Lemma rne_mono (u v : Q) : u <= v -> (rne u <= rne v)%Z.
Proof.
  intro Huv.
  assert (Hf := Qfloor_resp_le _ _ Huv).
  destruct (Z.eq_dec (Qfloor u) (Qfloor v)) as [E|E].
  2: { pose proof (rne_floor u); pose proof (rne_floor v); lia. }
  unfold rne; rewrite <- E.
  set (f := Qfloor u).
  destruct (Qcompare_spec (u - inject_Z f) (1 # 2)) as [H1|H1|H1];
  destruct (Qcompare_spec (v - inject_Z f) (1 # 2)) as [H2|H2|H2];
    try (destruct (Z.even _)); try lia; exfalso; lra.
Qed.

Lemma rne_le_int (u : Q) (N : Z) : u < inject_Z N -> (rne u <= N)%Z.
Proof.
  intro H.
  assert (Hf : (Qfloor u < N)%Z).
  { assert (H' : inject_Z (Qfloor u) < inject_Z N)
      by (eapply Qle_lt_trans; [apply Qfloor_le|exact H]).
    rewrite <- Zlt_Qlt in H'; exact H'. }
  pose proof (rne_floor u); lia.
Qed.

Lemma rne_ge_int (u : Q) (N : Z) : inject_Z N <= u -> (N <= rne u)%Z.
Proof.
  intro H. apply Qfloor_resp_le in H. rewrite Qfloor_Z in H.
  pose proof (rne_floor u); lia.
Qed.

Lemma pow2_pos (z : Z) : 0 < pow2 z.
Proof. apply Qpower_0_lt; lra. Qed.

Lemma pow2_plus (a b : Z) : pow2 (a + b) == pow2 a * pow2 b.
Proof. apply Qpower_plus; lra. Qed.

Lemma pow2_Z (k : Z) : (0 <= k)%Z -> inject_Z (2 ^ k) == pow2 k.
Proof. intro Hk; unfold pow2; rewrite Zpower_Qpower by exact Hk; reflexivity. Qed.

Lemma qexp_search_range (n : nat) (a : Q) :
  (-149 <= qexp_search n a <= -149 + Z.of_nat n)%Z.
Proof.
  induction n as [|n IH]; cbn [qexp_search]; [lia|].
  destruct (Qle_bool _ _); lia.
Qed.

Lemma qexp_search_low (n : nat) (a : Q) :
  qexp_search n a = (-149)%Z \/ pow2 (qexp_search n a + 23) <= a.
Proof.
  induction n as [|n IH]; cbn [qexp_search]; [left; reflexivity|].
  destruct (Qle_bool _ _) eqn:E; [right; apply Qle_bool_iff; exact E|exact IH].
Qed.

Lemma qexp_search_max (n : nat) (a : Q) (e : Z) :
  (qexp_search n a < e <= -149 + Z.of_nat n)%Z -> a < pow2 (e + 23).
Proof.
  induction n as [|n IH]; cbn [qexp_search]; intro He; [lia|].
  destruct (Qle_bool _ _) eqn:E; [lia|].
  destruct (Z.eq_dec e (-149 + Z.of_nat (S n))) as [->|Hne].
  - apply Qnot_le_lt; intro Hle; apply Qle_bool_iff in Hle; congruence.
  - apply IH; lia.
Qed.

Lemma qexp_search_mono (n : nat) (x y : Q) :
  x <= y -> (qexp_search n x <= qexp_search n y)%Z.
Proof.
  intro Hxy; induction n as [|n IH]; cbn [qexp_search]; [lia|].
  destruct (Qle_bool _ x) eqn:Ex.
  - apply Qle_bool_iff in Ex.
    assert (Ey : Qle_bool (pow2 (-149 + Z.of_nat (S n) + 23)) y = true)
      by (apply Qle_bool_iff; eapply Qle_trans; eassumption).
    rewrite Ey; lia.
  - destruct (Qle_bool _ y); [|exact IH].
    pose proof (qexp_search_range n x); lia.
Qed.

Lemma round_pos_mono (x y : Q) : x <= y -> round_pos x <= round_pos y.
Proof.
  intro Hxy; unfold round_pos, qexp.
  pose proof (qexp_search_mono 254 x y Hxy) as Hle.
  pose proof (qexp_search_range 254 x) as Rx.
  pose proof (qexp_search_range 254 y) as Ry.
  set (ex := qexp_search 254 x) in *; set (ey := qexp_search 254 y) in *.
  assert (Pex := pow2_pos ex); assert (Pey := pow2_pos ey).
  assert (Pmex := pow2_pos (- ex)); assert (Pmey := pow2_pos (- ey)).
  destruct (Z.eq_dec ex ey) as [E|Hne].
  - rewrite E in *.
    apply Qmult_le_compat_r; [|apply Qlt_le_weak; exact Pey].
    rewrite <- Zle_Qle; apply rne_mono.
    apply Qmult_le_compat_r; [exact Hxy|apply Qlt_le_weak; exact Pmey].
  - assert (Hx : x < pow2 (ey + 23)) by (apply (qexp_search_max 254); lia).
    assert (Hy : pow2 (ey + 23) <= y).
    { destruct (qexp_search_low 254 y) as [H|H]; [fold ey in H; lia|exact H]. }
    apply Qle_trans with (pow2 (ey + 23)).
    + assert (HN : x * pow2 (- ex) < inject_Z (2 ^ (ey + 23 - ex))).
      { rewrite pow2_Z by lia.
        replace (ey + 23 - ex)%Z with ((ey + 23) + - ex)%Z by ring.
        rewrite pow2_plus.
        apply (proj2 (Qmult_lt_r _ _ _ Pmex)); exact Hx. }
      apply rne_le_int in HN.
      apply Qle_trans with (inject_Z (2 ^ (ey + 23 - ex)) * pow2 ex).
      * apply Qmult_le_compat_r; [rewrite <- Zle_Qle; exact HN|apply Qlt_le_weak; exact Pex].
      * rewrite pow2_Z by lia. rewrite <- pow2_plus.
        replace (ey + 23 - ex + ex)%Z with (ey + 23)%Z by ring. apply Qle_refl.
    + assert (HN : inject_Z (2 ^ 23) <= y * pow2 (- ey)).
      { rewrite pow2_Z by lia.
        replace (pow2 23) with (pow2 ((ey + 23) + - ey)) by (f_equal; ring).
        rewrite pow2_plus.
        apply Qmult_le_compat_r; [exact Hy|apply Qlt_le_weak; exact Pmey]. }
      apply rne_ge_int in HN.
      apply Qle_trans with (inject_Z (2 ^ 23) * pow2 ey).
      * rewrite pow2_Z by lia. rewrite <- pow2_plus.
        replace (23 + ey)%Z with (ey + 23)%Z by ring. apply Qle_refl.
      * apply Qmult_le_compat_r; [rewrite <- Zle_Qle; exact HN|apply Qlt_le_weak; exact Pey].
Qed.

Lemma round_pos_nonneg (x : Q) : 0 <= x -> 0 <= round_pos x.
Proof.
  intro Hx.
  apply Qle_trans with (round_pos 0); [|apply round_pos_mono; exact Hx].
  vm_compute; discriminate.
Qed.

Ltac f32_cases :=
  repeat match goal with
         | |- context [Qle_bool ?a ?b] =>
             let E := fresh "E" in
             destruct (Qle_bool a b) eqn:E;
             [apply Qle_bool_iff in E|
              assert (~ a <= b) by (rewrite <- Qle_bool_iff; congruence)]
         end; cbn [f32_le]; rewrite ?Qred_correct; try exact I.

Lemma to_float_mono (x y : Q) : x <= y -> f32_le (to_float x) (to_float y).
Proof.
  intro Hxy; unfold to_float.
  destruct (Qcompare_spec x 0) as [Hx|Hx|Hx];
  destruct (Qcompare_spec y 0) as [Hy|Hy|Hy]; try (exfalso; lra).
  - simpl; lra.
  - assert (Ny := round_pos_nonneg y ltac:(lra)); f32_cases; lra.
  - assert (Nx := round_pos_nonneg (- x) ltac:(lra)); f32_cases; lra.
  - assert (Nx := round_pos_nonneg (- x) ltac:(lra)).
    assert (M := round_pos_mono (- y) (- x) ltac:(lra)); f32_cases; lra.
  - assert (Nx := round_pos_nonneg (- x) ltac:(lra)).
    assert (Ny := round_pos_nonneg y ltac:(lra)); f32_cases; lra.
  - assert (M := round_pos_mono x y Hxy); f32_cases; lra.
Qed.

Lemma Qopp_opp_eq (x : Q) : - - x = x.
Proof. destruct x as [n d]; unfold Qopp; simpl; rewrite Z.opp_involutive; reflexivity. Qed.

(** Rounding is symmetric: the float of [-x] is minus the float of [x]. *)
Lemma to_float_opp (x : Q) : to_float (- x) = f32_opp (to_float x).
Proof.
  unfold to_float.
  destruct (Qcompare_spec x 0) as [Hx|Hx|Hx];
  destruct (Qcompare_spec (- x) 0) as [Hy|Hy|Hy]; try (exfalso; lra).
  - reflexivity.
  - destruct (Qle_bool _ _); [|reflexivity].
    cbn [f32_opp]; f_equal; apply Qred_complete.
    rewrite Qred_correct, Qopp_opp_eq; reflexivity.
  - rewrite Qopp_opp_eq.
    destruct (Qle_bool _ _); [|reflexivity].
    cbn [f32_opp]; f_equal; apply Qred_complete.
    rewrite Qred_correct; reflexivity.
Qed.


Ltac by_mode s := unfold resetMapRange; destruct (dataType s) eqn:?; simpl; congruence.

Lemma cpp_max_is_Qmax (a b : Q) : cpp_max a b = Qmax a b.
Proof. reflexivity. Qed.

Lemma fold_min_le_fold_max (l : list Q) :
  forall x y, x <= y -> fold_left Qmin l x <= fold_left Qmax l y.
Proof.
  induction l as [|a l IH]; intros x y Hxy; simpl.
  - exact Hxy.
  - apply IH.
    apply Qle_trans with x; [apply Q.le_min_l|].
    apply Qle_trans with y; [exact Hxy|apply Q.le_max_l].
Qed.

Lemma robustMinMax_ordered (data : list Q) (eps : Q) :
  fst (robustMinMax data eps) <= snd (robustMinMax data eps).
Proof.
  unfold robustMinMax.
  destruct (if Nat.ltb _ _ then _ else _) as [|x rest]; simpl.
  - apply Qle_refl.
  - apply fold_min_le_fold_max, Qle_refl.
Qed.

Lemma construct_eq (dcm : DataType -> ColorMapID) (nPts : nat) (dt : DataType)
      (values_ : list Q) :
  construct dcm nPts dt values_ =
  resetMapRange
    (mkState nPts dt values_ (robustMinMax values_ (1 # 100000))
             (F32Fin 0, F32Fin 0) (dcm dt)
             (mkHistogram (Some (dcm dt)) values_ (F32Fin 0, F32Fin 0)) None
             (length_error_log values_ nPts ++
              [EvHistUpdateColormap (dcm dt); EvHistBuild values_])).
Proof.
  unfold construct, exec_body, length_error_log; simpl.
  destruct (Nat.eqb (length values_) nPts); reflexivity.
Qed.

Lemma resetMapRange_dataType (s : State) :
  dataType (resetMapRange s) = dataType s.
Proof. by_mode s. Qed.

Lemma resetMapRange_dataRange (s : State) :
  dataRange (resetMapRange s) = dataRange s.
Proof. by_mode s. Qed.

Lemma resetMapRange_values (s : State) :
  values (resetMapRange s) = values s.
Proof. by_mode s. Qed.

Lemma resetMapRange_log (s : State) :
  log (resetMapRange s) = log s ++ [EvRequestRedraw].
Proof. by_mode s. Qed.

Lemma resetMapRange_cMap (s : State) :
  cMap (resetMapRange s) = cMap s.
Proof. by_mode s. Qed.

Lemma resetMapRange_pointProgram (s : State) :
  pointProgram (resetMapRange s) = pointProgram s.
Proof. by_mode s. Qed.

Lemma apply_mutator_dataType (m : Mutator) (s : State) :
  dataType (apply_mutator m s) = dataType s.
Proof. destruct m; [apply resetMapRange_dataType|reflexivity..]. Qed.

Lemma apply_mutator_dataRange (m : Mutator) (s : State) :
  dataRange (apply_mutator m s) = dataRange s.
Proof. destruct m; [apply resetMapRange_dataRange|reflexivity..]. Qed.

(** The mode condition under which [resetMapRange] yields an ordered range. *)
Lemma resetMapRange_ordered (s : State) :
  fst (dataRange s) <= snd (dataRange s) ->
  (dataType s <> MAGNITUDE \/ 0 <= snd (dataRange s)) ->
  f32_le (fst (vizRange (resetMapRange s))) (snd (vizRange (resetMapRange s))).
Proof.
  intros Hdr Hmode; unfold resetMapRange.
  destruct (dataType s) eqn:Hdt;
    cbn [vizRange requestRedraw emit set_vizRange to_float_pair fst snd];
    apply to_float_mono.
  - exact Hdr.
  - set (m := cpp_max _ _).
    assert (Hm : 0 <= m).
    { unfold m; rewrite cpp_max_is_Qmax.
      apply Qle_trans with (cpp_abs (fst (dataRange s)));
        [apply Qabs_nonneg|apply Q.le_max_l]. }
    apply Qle_trans with 0; [|exact Hm].
    apply Qopp_le_compat in Hm; exact Hm.
  - destruct Hmode as [H|H]; [congruence|exact H].
Qed.

Lemma run_dataType (ms : list Mutator) :
  forall s, dataType (run ms s) = dataType s.
Proof.
  induction ms as [|m ms IH]; intro s; simpl; [reflexivity|].
  rewrite IH; apply apply_mutator_dataType.
Qed.

Lemma run_dataRange (ms : list Mutator) :
  forall s, dataRange (run ms s) = dataRange s.
Proof.
  induction ms as [|m ms IH]; intro s; simpl; [reflexivity|].
  rewrite IH; apply apply_mutator_dataRange.
Qed.

Lemma resetMapRange_eq (s : State) :
  resetMapRange s =
  requestRedraw (set_vizRange (to_float_pair (reset_table (dataType s) (dataRange s))) s).
Proof. unfold resetMapRange, reset_table; destruct (dataType s); reflexivity. Qed.

(** ** Claims *)

(** C1 (as stated, refuted): [vizRange] is not the mode table itself.  In
    STANDARD mode the values [0; 1 + 2^-30] give [dataRange = (0, 1 + 2^-30)],
    but [vizRange] holds the floats [(0, 1)]. *)
Lemma C1_exact_table_fails :
  ~ (forall s : State,
       let exact := match dataType s with
                    | STANDARD => dataRange s
                    | SYMMETRIC =>
                        let m := Qmax (Qabs (fst (dataRange s)))
                                      (Qabs (snd (dataRange s))) in
                        (- m, m)
                    | MAGNITUDE => (0, snd (dataRange s))
                    end in
       f32_eq (fst (vizRange (resetMapRange s))) (F32Fin (fst exact)) /\
       f32_eq (snd (vizRange (resetMapRange s))) (F32Fin (snd exact))).
Proof.
  intro H.
  specialize (H (construct (fun _ => 0%nat) 2 STANDARD [0; 1 + (1 # 2 ^ 30)])).
  vm_compute in H. destruct H as [_ H]. discriminate H.
Qed.

(** C1 (amended): [resetMapRange] computes the mode table in double and
    stores it in the float pair [vizRange], each bound rounded to the
    nearest float: STANDARD gives [(fl lo, fl hi)]; SYMMETRIC gives
    [(fl (-m), fl m)] with [m = max(|lo|, |hi|)], whose low end is minus its
    high end; MAGNITUDE gives [(0, fl hi)]. *)
Theorem C1_resetMapRange_mode_table_float (s : State) :
  vizRange (resetMapRange s) =
  match dataType s with
  | STANDARD => (to_float (fst (dataRange s)), to_float (snd (dataRange s)))
  | SYMMETRIC =>
      let m := Qmax (Qabs (fst (dataRange s))) (Qabs (snd (dataRange s))) in
      (to_float (- m), to_float m)
  | MAGNITUDE => (F32Fin 0, to_float (snd (dataRange s)))
  end /\
  (dataType s = SYMMETRIC ->
   fst (vizRange (resetMapRange s)) = f32_opp (snd (vizRange (resetMapRange s)))).
Proof.
  split.
  - unfold resetMapRange; destruct (dataType s); reflexivity.
  - intro Hdt; rewrite resetMapRange_eq, Hdt; cbn.
    apply to_float_opp.
Qed.

(** C2 (as stated, refuted): [vizRange.lo <= vizRange.hi] after construction
    and after every mutator call fails for valid input: a two-point cloud
    with the all-negative values [-5; -3] in MAGNITUDE mode is constructed
    with [vizRange = (0.0f, -3.0f)]. *)
Lemma C2_magnitude_negative_data :
  ~ (forall (dcm : DataType -> ColorMapID) (nPts : nat) (dt : DataType)
        (values_ : list Q) (ms : list Mutator),
        length values_ = nPts ->
        Forall mutator_ordered ms ->
        f32_le (fst (vizRange (run ms (construct dcm nPts dt values_))))
               (snd (vizRange (run ms (construct dcm nPts dt values_))))).
Proof.
  intro H.
  specialize (H (fun _ => 0%nat) 2%nat MAGNITUDE [-5; -3] [] eq_refl
                (Forall_nil _)).
  vm_compute in H. apply H. reflexivity.
Qed.

(** C2 (amended): after construction and after any sequence of mutator
    calls in which [setMapRange] is given ordered pairs, the float pair
    [vizRange] satisfies [vizRange.lo <= vizRange.hi] in STANDARD and
    SYMMETRIC mode, and in MAGNITUDE mode whenever the upper data bound
    [dataRange.hi] is non-negative.  Rounding to float keeps the order. *)
Theorem C2_vizRange_ordered (dcm : DataType -> ColorMapID) (nPts : nat)
        (dt : DataType) (values_ : list Q) (ms : list Mutator)
        (Hmode : dt <> MAGNITUDE \/ 0 <= snd (robustMinMax values_ (1 # 100000)))
        (Hms : Forall mutator_ordered ms) :
  f32_le (fst (vizRange (run ms (construct dcm nPts dt values_))))
         (snd (vizRange (run ms (construct dcm nPts dt values_)))).
Proof.
  set (s0 := construct dcm nPts dt values_).
  assert (Hdt : dataType s0 = dt)
    by (unfold s0; rewrite construct_eq, resetMapRange_dataType; reflexivity).
  assert (Hdr : dataRange s0 = robustMinMax values_ (1 # 100000))
    by (unfold s0; rewrite construct_eq, resetMapRange_dataRange; reflexivity).
  assert (H0 : f32_le (fst (vizRange s0)) (snd (vizRange s0))).
  { unfold s0; rewrite construct_eq.
    apply resetMapRange_ordered; simpl; [apply robustMinMax_ordered|exact Hmode]. }
  clearbody s0.
  revert s0 Hdt Hdr H0; induction Hms as [|m ms Hm Hms IH]; intros s0 Hdt Hdr H0;
    simpl; [exact H0|].
  apply IH.
  - rewrite apply_mutator_dataType; exact Hdt.
  - rewrite apply_mutator_dataRange; exact Hdr.
  - destruct m as [|[a b]| |]; simpl.
    + apply resetMapRange_ordered.
      * rewrite Hdr; apply robustMinMax_ordered.
      * rewrite Hdt, Hdr; exact Hmode.
    + apply to_float_mono; exact Hm.
    + exact H0.
    + exact H0.
Qed.

Lemma C2_vizRange_ordered_witness :
  (SYMMETRIC <> MAGNITUDE \/ 0 <= snd (robustMinMax [-5; 2; 9] (1 # 100000))) /\
  Forall mutator_ordered [MResetMapRange; MSetMapRange (-1, 4); MSetColorMap 3%nat] /\
  f32_le (fst (vizRange (run [MResetMapRange; MSetMapRange (-1, 4); MSetColorMap 3%nat]
                             (construct (fun _ => 0%nat) 3 SYMMETRIC [-5; 2; 9]))))
         (snd (vizRange (run [MResetMapRange; MSetMapRange (-1, 4); MSetColorMap 3%nat]
                             (construct (fun _ => 0%nat) 3 SYMMETRIC [-5; 2; 9])))).
Proof.
  assert (Hmode : SYMMETRIC <> MAGNITUDE \/
                  0 <= snd (robustMinMax [-5; 2; 9] (1 # 100000)))
    by (left; discriminate).
  assert (Hms : Forall mutator_ordered
                  [MResetMapRange; MSetMapRange (-1, 4); MSetColorMap 3%nat]).
  { repeat constructor; simpl; vm_compute; discriminate. }
  split; [exact Hmode|split; [exact Hms|]].
  apply (C2_vizRange_ordered (fun _ => 0%nat) 3 SYMMETRIC [-5; 2; 9] _ Hmode Hms).
Defined.

(** C3 (code defect): the colormap selector of [buildCustomUI] resets
    [pointProgram] before calling [setColorMap], and [setMapRange] leaves the
    program alone, but [setColorMap] itself keeps a built program: a cloud
    drawn once with colormap 0 and then given colormap 5 by [setColorMap]
    is drawn again with the program whose texture still holds colormap 0. *)
Theorem C3_setColorMap_keeps_stale_program :
  (forall (c : ColorMapID) (s : State),
     pointProgram (ui_colormapSelected c s) = None) /\
  (forall (r : Q * Q) (s : State),
     pointProgram (setMapRange r s) = pointProgram s) /\
  (forall (c : ColorMapID) (s : State),
     pointProgram (setColorMap c s) = pointProgram s) /\
  (let s1 := fst (draw true (construct (fun _ => 0%nat) 2 STANDARD [1; 2])) in
   let s2 := setColorMap 5%nat s1 in
   getColorMap s2 = 5%nat /\
   pointProgram s2 = Some (mkGLProgram [1; 2] 0%nat) /\
   option_map (fun d => prog_cmap (drawn_with d)) (snd (draw true s2))
     = Some 0%nat).
Proof.
  split; [intros; reflexivity|].
  split; [intros; reflexivity|].
  split; [intros; reflexivity|].
  vm_compute; repeat split.
Qed.

(** C4 (as stated, refuted): the constructor does not run in the order
    copy values, default colormap, robust range, reset range, histogram
    notification.  Its statements are in a different order, and the
    difference is observable: the histogram is notified before the redraw
    request of [resetMapRange], not after it. *)
Lemma C4_order_differs :
  ctor_body <> spec_ctor_order /\
  log (construct (fun _ => 0%nat) 2 STANDARD [1; 2]) <>
  log (exec_body (fun _ => 0%nat) [1; 2] spec_ctor_order (ctor_init 2 STANDARD)).
Proof. split; vm_compute; discriminate. Qed.

(** C4 (amended): construction picks the dataType-keyed default colormap,
    reports a length mismatch, copies the values, notifies the histogram of
    the colormap and of the values, computes [dataRange] with [robustMinMax]
    and trim fraction 1e-5, and then applies [resetMapRange], whose redraw
    request is the last effect. *)
Theorem C4_construction_steps (dcm : DataType -> ColorMapID) (nPts : nat)
        (dt : DataType) (values_ : list Q) :
  let s := construct dcm nPts dt values_ in
  cMap s = dcm dt /\
  values s = values_ /\
  dataRange s = robustMinMax values_ (1 # 100000) /\
  vizRange s = vizRange (resetMapRange (set_dataRange
                  (robustMinMax values_ (1 # 100000)) (ctor_init nPts dt))) /\
  hist s = mkHistogram (Some (dcm dt)) values_ (F32Fin 0, F32Fin 0) /\
  log s = length_error_log values_ nPts ++
          [EvHistUpdateColormap (dcm dt); EvHistBuild values_; EvRequestRedraw].
Proof.
  cbv zeta; rewrite construct_eq.
  unfold resetMapRange, set_dataRange, ctor_init; simpl.
  destruct dt; simpl; repeat split; rewrite <- app_assoc; reflexivity.
Qed.

(** C5: a values sequence whose length differs from the cloud's point
    count is reported by a logged error, and construction still completes
    with the given values, of the given length. *)
Theorem C5_length_mismatch_nonfatal (dcm : DataType -> ColorMapID) (nPts : nat)
        (dt : DataType) (values_ : list Q) (Hne : length values_ <> nPts) :
  In (EvError (length values_) nPts) (log (construct dcm nPts dt values_)) /\
  values (construct dcm nPts dt values_) = values_ /\
  length (values (construct dcm nPts dt values_)) = length values_.
Proof.
  rewrite construct_eq, resetMapRange_log, resetMapRange_values; simpl.
  unfold length_error_log.
  apply Nat.eqb_neq in Hne; rewrite Hne; simpl.
  split; [left; reflexivity|split; reflexivity].
Qed.

Lemma C5_length_mismatch_nonfatal_witness :
  length [1; 2; 3; 4; 5] <> 10%nat /\
  In (EvError 5 10) (log (construct (fun _ => 0%nat) 10 STANDARD [1; 2; 3; 4; 5])) /\
  values (construct (fun _ => 0%nat) 10 STANDARD [1; 2; 3; 4; 5]) = [1; 2; 3; 4; 5] /\
  length (values (construct (fun _ => 0%nat) 10 STANDARD [1; 2; 3; 4; 5])) = 5%nat.
Proof.
  assert (Hne : length [1; 2; 3; 4; 5] <> 10%nat) by (simpl; lia).
  split; [exact Hne|].
  apply (C5_length_mismatch_nonfatal (fun _ => 0%nat) 10 STANDARD [1; 2; 3; 4; 5] Hne).
Defined.

(** C6 (as stated, refuted): [setMapRange((0, 1 + 2^-30))] then
    [getMapRange()] gives [(0, 1)]: the pair is stored in the float
    [vizRange], not verbatim. *)
Lemma C6_exact_roundtrip_fails :
  ~ (forall (s : State) (a b : Q), a <= b ->
       f32_eq (fst (getMapRange (setMapRange (a, b) s))) (F32Fin a) /\
       f32_eq (snd (getMapRange (setMapRange (a, b) s))) (F32Fin b)).
Proof.
  intro H.
  assert (Hab : 0 <= 1 + (1 # 2 ^ 30)) by (vm_compute; discriminate).
  specialize (H (construct (fun _ => 0%nat) 2 STANDARD [1; 2]) 0 (1 + (1 # 2 ^ 30)) Hab).
  vm_compute in H. destruct H as [_ H]. discriminate H.
Qed.

(** C6 (amended): [setMapRange((a, b))] then [getMapRange()] gives back
    [(fl a, fl b)], the pair rounded to float, for every pair and whatever
    the state: nothing is clamped or validated; an ordered pair reads back
    ordered. *)
Theorem C6_setMapRange_getMapRange_float (s : State) (a b : Q) :
  getMapRange (setMapRange (a, b) s) = (to_float a, to_float b) /\
  (a <= b -> f32_le (fst (getMapRange (setMapRange (a, b) s)))
                    (snd (getMapRange (setMapRange (a, b) s)))).
Proof.
  split; [reflexivity|].
  intro Hab; apply to_float_mono; exact Hab.
Qed.

(** C7: [resetMapRange] is idempotent on [vizRange]. *)
Theorem C7_resetMapRange_idempotent (s : State) :
  vizRange (resetMapRange (resetMapRange s)) = vizRange (resetMapRange s).
Proof.
  rewrite (resetMapRange_eq (resetMapRange s)).
  rewrite resetMapRange_dataType, resetMapRange_dataRange.
  rewrite (resetMapRange_eq s); reflexivity.
Qed.

(** C8: [setColorMap(id)] then [getColorMap()] gives back [id], whatever
    [id] is. *)
Theorem C8_setColorMap_getColorMap (s : State) (id : ColorMapID) :
  getColorMap (setColorMap id s) = id.
Proof. reflexivity. Qed.

(** C9: [geometryChanged] drops the draw program and keeps [values],
    [dataRange] and [vizRange]. *)
Theorem C9_geometryChanged_frame (s : State) :
  pointProgram (geometryChanged s) = None /\
  values (geometryChanged s) = values s /\
  dataRange (geometryChanged s) = dataRange s /\
  vizRange (geometryChanged s) = vizRange s.
Proof. repeat split. Qed.

(** C10: [buildPickUI(ind)] reads a value exactly when [ind < values.length];
    a field constructed from 5 values on a 10-point cloud has point index 7
    valid for the cloud but past the end of [values]. *)
Theorem C10_buildPickUI_precondition :
  (forall (s : State) (ind : nat),
     buildPickUI s ind <> None <-> (ind < length (values s))%nat) /\
  (forall dcm : DataType -> ColorMapID,
     let s := construct dcm 10 STANDARD [1; 2; 3; 4; 5] in
     (7 < nPoints s)%nat /\ buildPickUI s 7 = None).
Proof.
  split.
  - intros s ind; unfold buildPickUI; split; intro H.
    + apply nth_error_Some; exact H.
    + apply nth_error_Some; exact H.
  - intro dcm; cbv zeta.
    rewrite construct_eq; unfold buildPickUI.
    rewrite resetMapRange_values.
    split; [simpl; unfold resetMapRange; simpl; lia|reflexivity].
Qed.

(** ** Further properties of the code *)


Lemma draw_enabled_eq (s : State) :
  let p := match pointProgram s with
           | Some p => p
           | None => mkGLProgram (values s) (cMap s)
           end in
  draw true s = (set_pointProgram (Some p) s,
                 Some (mkDrawCall (fst (vizRange s)) (snd (vizRange s)) p)).
Proof.
  unfold draw; simpl.
  destruct s as [n dt v dr vr c h [p|] l]; reflexivity.
Qed.

(** X2: the program is built at most once: a second draw leaves the state
    as the first one left it and issues the same draw call. *)
Theorem X2_draw_twice (s : State) :
  draw true (fst (draw true s)) = (fst (draw true s), snd (draw true s)).
Proof.
  rewrite draw_enabled_eq; simpl.
  rewrite draw_enabled_eq; simpl.
  destruct s as [n dt v dr vr c h [p|] l]; reflexivity.
Qed.

(** X3: after [geometryChanged], the next draw rebuilds the program from
    the current values and colormap, whatever program existed before. *)
Theorem X3_geometryChanged_then_draw (s : State) :
  option_map drawn_with (snd (draw true (geometryChanged s))) =
  Some (mkGLProgram (values s) (cMap s)).
Proof. reflexivity. Qed.

(** X4: choosing colormap [c] in the selector of [buildCustomUI] drops the
    program, so the next draw uses a program built with [c]; the histogram
    is told [c] twice (once directly, once inside [setColorMap]) and one
    redraw is requested. *)
Theorem X4_selector_then_draw (c : ColorMapID) (s : State) :
  getColorMap (ui_colormapSelected c s) = c /\
  hist_cmap (hist (ui_colormapSelected c s)) = Some c /\
  log (ui_colormapSelected c s) =
    log s ++ [EvHistUpdateColormap c; EvHistUpdateColormap c; EvRequestRedraw] /\
  option_map drawn_with (snd (draw true (ui_colormapSelected c s))) =
    Some (mkGLProgram (values s) c).
Proof.
  unfold ui_colormapSelected; simpl.
  repeat split; rewrite <- !app_assoc; reflexivity.
Qed.

(** X5: [setMapRange(r)] does not rebuild the program: the next draw uses
    the program a draw before the call would have used, with [r] rounded
    to float as its uniforms. *)
Theorem X5_setMapRange_then_draw (r : Q * Q) (s : State) :
  snd (draw true (setMapRange r s)) =
  option_map (fun d => mkDrawCall (to_float (fst r)) (to_float (snd r))
                                  (drawn_with d))
             (snd (draw true s)).
Proof.
  rewrite !draw_enabled_eq; reflexivity.
Qed.

(** X6: the first draw after construction builds its program from the
    given values and the default colormap of the mode, and draws with the
    reset range of the mode computed from [dataRange], rounded to float. *)
Theorem X6_construct_then_draw (dcm : DataType -> ColorMapID) (nPts : nat)
        (dt : DataType) (values_ : list Q) :
  let s := construct dcm nPts dt values_ in
  snd (draw true s) =
  Some (mkDrawCall (to_float (fst (reset_table dt (dataRange s))))
                   (to_float (snd (reset_table dt (dataRange s))))
                   (mkGLProgram values_ (dcm dt))).
Proof.
  cbv zeta; rewrite construct_eq, resetMapRange_eq; reflexivity.
Qed.

Lemma apply_mutator_values (m : Mutator) (s : State) :
  values (apply_mutator m s) = values s.
Proof. destruct m; [apply resetMapRange_values|reflexivity..]. Qed.

Lemma apply_mutator_nPoints (m : Mutator) (s : State) :
  nPoints (apply_mutator m s) = nPoints s.
Proof. destruct m; [rewrite resetMapRange_eq|..]; reflexivity. Qed.

Lemma run_values (ms : list Mutator) :
  forall s, values (run ms s) = values s.
Proof.
  induction ms as [|m ms IH]; intro s; simpl; [reflexivity|].
  rewrite IH; apply apply_mutator_values.
Qed.

(** X7: no mutator call changes the values, the mode, the data range or
    the point count the field was built with. *)
Theorem X7_mutators_keep_data (ms : list Mutator) (s : State) :
  values (run ms s) = values s /\
  dataType (run ms s) = dataType s /\
  dataRange (run ms s) = dataRange s /\
  nPoints (run ms s) = nPoints s.
Proof.
  split; [|split; [apply run_dataType|split; [apply run_dataRange|]]];
    revert s; induction ms as [|m ms IH]; intro s; simpl; try reflexivity;
    rewrite IH; [apply apply_mutator_values|apply apply_mutator_nPoints].
Qed.

(** X9: the pick readout of point [ind] shows the [ind]-th of the values
    given to the constructor, after any mutator calls, and is undefined
    past their end. *)
Theorem X9_pick_after_mutators (dcm : DataType -> ColorMapID) (nPts : nat)
        (dt : DataType) (values_ : list Q) (ms : list Mutator) (ind : nat) :
  buildPickUI (run ms (construct dcm nPts dt values_)) ind = nth_error values_ ind.
Proof.
  unfold buildPickUI.
  rewrite run_values, construct_eq, resetMapRange_values; reflexivity.
Qed.

(** X11: a reset restores the same range whatever mutator calls came
    before it: user ranges set by [setMapRange] are forgotten. *)
Theorem X11_reset_forgets_history (ms : list Mutator) (s : State) :
  vizRange (resetMapRange (run ms s)) = vizRange (resetMapRange s).
Proof.
  rewrite !resetMapRange_eq; simpl.
  rewrite run_dataType, run_dataRange; reflexivity.
Qed.

Ltac ui_cases inp :=
  destruct inp as [mr sel rb sl]; destruct mr, sel, rb;
  unfold buildCustomUI, ui_colormapSelected; cbv beta iota zeta;
  repeat rewrite resetMapRange_eq; simpl.

(** X12: the histogram is given the range as it stands before the slider
    edits it: without a slider edit it shows the current [vizRange]; with a
    slider edit to [r], [vizRange] becomes [r] while the histogram keeps the
    range of the frame without that edit, and the edit requests no redraw. *)
Theorem X12_histogram_range_lag (inp : UIInput) (s : State) :
  let noSlider := mkUIInput (ui_menuReset inp) (ui_selector inp)
                            (ui_resetButton inp) None in
  hist_colormapRange (hist (buildCustomUI noSlider s)) =
    vizRange (buildCustomUI noSlider s) /\
  (forall r, ui_slider inp = Some r ->
     vizRange (buildCustomUI inp s) = r /\
     hist_colormapRange (hist (buildCustomUI inp s)) =
       vizRange (buildCustomUI noSlider s)) /\
  log (buildCustomUI inp s) = log (buildCustomUI noSlider s).
Proof.
  cbv zeta.
  split; [|split].
  - ui_cases inp; reflexivity.
  - intros r Hr; ui_cases inp; simpl in Hr; subst sl; split; reflexivity.
  - ui_cases inp; destruct sl; reflexivity.
Qed.

(** X13: when the Reset button is pressed and the slider is not dragged,
    the frame ends with the reset range of the mode rounded to float,
    whatever the menu item and the colormap selector did. *)
Theorem X13_reset_button (mr : bool) (sel : option ColorMapID) (s : State) :
  vizRange (buildCustomUI (mkUIInput mr sel true None) s) =
    to_float_pair (reset_table (dataType s) (dataRange s)) /\
  hist_colormapRange (hist (buildCustomUI (mkUIInput mr sel true None) s)) =
    to_float_pair (reset_table (dataType s) (dataRange s)).
Proof.
  destruct mr, sel; unfold buildCustomUI, ui_colormapSelected; cbv beta iota zeta;
    repeat rewrite resetMapRange_eq; simpl; split; reflexivity.
Qed.

(** X14: a frame of the options UI never changes the values, the mode or
    the data range; it drops the program and installs colormap [c] exactly
    when the selector reports [c], and otherwise keeps both. *)
Theorem X14_ui_frame_effects (inp : UIInput) (s : State) :
  values (buildCustomUI inp s) = values s /\
  dataType (buildCustomUI inp s) = dataType s /\
  dataRange (buildCustomUI inp s) = dataRange s /\
  pointProgram (buildCustomUI inp s) =
    match ui_selector inp with Some _ => None | None => pointProgram s end /\
  cMap (buildCustomUI inp s) =
    match ui_selector inp with Some c => c | None => cMap s end.
Proof.
  ui_cases inp; destruct sl; repeat split.
Qed.
